(** * nkms.crypto.keyring: the KeyRing facade

    A shallow embedding of [src/nkms/crypto/keyring.py].  The class holds a
    signing keypair, an encrypting keypair and a proxy-re-encryption object,
    and forwards every operation to one of them after hashing or defaulting
    an argument.  Methods are state transformers over the object [self] and
    the outside world; the collaborators that the module imports (sha3,
    nkms.crypto.keypairs, nkms.crypto) are interfaces. *)

From Stdlib Require Import ZArith List Bool String Lia.
From Stdlib Require Import Strings.Byte.
Import ListNotations.
Local Open Scope Z_scope.

(** ** Python values *)

Definition bytes := list byte.

(** The objects a caller can pass where the source tests an argument for
    truth ([if not pubkey], [... if is_pub else ...]). *)
Inductive value : Type :=
| VNone
| VBool (b : bool)
| VInt (n : Z)
| VBytes (bs : bytes).

(** Python's truth value testing. *)
Definition truthy (v : value) : bool :=
  match v with
  | VNone => false
  | VBool b => b
  | VInt n => negb (n =? 0)
  | VBytes bs => match bs with [] => false | _ :: _ => true end
  end.

(** A parameter declared [name=default]: [None] is a call that leaves the
    argument out. *)
Definition default_arg {A : Type} (default : A) (supplied : option A) : A :=
  match supplied with
  | Some v => v
  | None => default
  end.

(** ** Exceptions and state *)

(** An exception is identified by the name of its class. *)
Definition exn := string.

Inductive Res (A : Type) : Type :=
| Ok (a : A)
| Raise (e : exn).
Arguments Ok {A} a.
Arguments Raise {A} e.

(** A computation over a state [S]: it returns or raises, and the state it
    leaves behind is kept in both cases. *)
Definition ST (S A : Type) : Type := S -> Res A * S.

Definition ret {S A : Type} (a : A) : ST S A := fun s => (Ok a, s).

Definition bind {S A B : Type} (m : ST S A) (k : A -> ST S B) : ST S B :=
  fun s =>
    match m s with
    | (Ok a, s') => k a s'
    | (Raise e, s') => (Raise e, s')
    end.

Definition raise {S A : Type} (e : exn) : ST S A := fun s => (Raise e, s).

Definition gets {S A : Type} (f : S -> A) : ST S A := fun s => (Ok (f s), s).

(** A pure call that may raise. *)
Definition lift_res {S A : Type} (r : Res A) : ST S A := fun s => (r, s).

Declare Scope py_scope.
Delimit Scope py_scope with py.
Notation "x <- m ;; k" := (bind m (fun x => k))
  (at level 100, m at next level, right associativity) : py_scope.
Local Open Scope py_scope.

(** ** The outside world: the operating system's random device *)

Record World : Type := mkWorld {
  device : nat -> byte;   (* the bytes the device will hand out, in order *)
  drawn : nat             (* how many have been handed out *)
}.

Definition take_bytes (n : nat) (w : World) : bytes :=
  map (device w) (seq (drawn w) n).

Definition advance (n : nat) (w : World) : World :=
  {| device := device w; drawn := (drawn w + n)%nat |}.

(** The range of a C [Py_ssize_t], 64 bits wide. *)
Definition PY_SSIZE_T_MAX : Z := 9223372036854775807.

Definition PY_SSIZE_T_MIN : Z := - PY_SSIZE_T_MAX - 1.

(** [from nacl.utils import random].  PyNaCl's [random(size)] is
    [os.urandom(size)], which first converts its argument to a C
    [Py_ssize_t] and then tests its sign: a size outside the range of that
    type is an [OverflowError], a negative size inside it a [ValueError], and
    any other size gives that many bytes of the operating system's secure
    source.  Running out of memory is left out. *)
Definition random (size : Z) : ST World bytes :=
  fun w =>
    if (size <? PY_SSIZE_T_MIN) || (PY_SSIZE_T_MAX <? size)
    then (Raise "OverflowError"%string, w)
    else if size <? 0 then (Raise "ValueError"%string, w)
    else (Ok (take_bytes (Z.to_nat size) w), advance (Z.to_nat size) w).

(** ** Collaborators *)

(** A keypair object of nkms.crypto.keypairs, as far as the KeyRing reads
    it: the two attributes [priv_key] and [pub_key]. *)
Record Keypair : Type := mkKeypair {
  priv_key : bytes;
  pub_key : bytes
}.

(** [import sha3]: [keccak_256 m] is [sha3.keccak_256(m).digest()]. *)
Class Sha3 : Type := {
  keccak_256 : bytes -> bytes
}.

(** [from nkms.crypto.keypairs import SigningKeypair, EncryptingKeypair].
    A constructor runs in the world (it may draw a fresh key); a method runs
    on its keypair object and the world. *)
Class Keypairs : Type := {
  SigningKeypair : value -> ST World Keypair;
  SigningKeypair_sign : bytes -> ST (Keypair * World) bytes;
  SigningKeypair_verify : bytes -> bytes -> value -> ST (Keypair * World) bool;
  EncryptingKeypair : value -> ST World Keypair;
  EncryptingKeypair_encrypt : bytes -> value -> ST (Keypair * World) bytes;
  EncryptingKeypair_decrypt : bytes -> ST (Keypair * World) bytes
}.

(** [from nkms.crypto import default_algorithm, pre_from_algorithm]: the
    process-wide algorithm choice and the object built from it, of which the
    KeyRing calls [priv2pub] only. *)
Class ProxyReEncryption : Type := {
  Algorithm : Type;
  PRE : Type;
  default_algorithm : Algorithm;
  pre_from_algorithm : Algorithm -> Res PRE;
  priv2pub : PRE -> bytes -> Res bytes
}.

(** ** class KeyRing *)

Section KeyRing.

Context {hash : Sha3} {keypair_classes : Keypairs} {proxy : ProxyReEncryption}.

(** The attributes [__init__] sets. *)
Record KeyRing : Type := mkKeyRing {
  sig_keypair : Keypair;
  enc_keypair : Keypair;
  pre : PRE
}.

(** What a method runs on: the object [self] and the world. *)
Record Store : Type := mkStore {
  self : KeyRing;
  world : World
}.

Definition Method (A : Type) : Type := ST Store A.

(** A call that touches the world only. *)
Definition in_world {A : Type} (m : ST World A) : Method A :=
  fun st =>
    match m (world st) with
    | (r, w') => (r, {| self := self st; world := w' |})
    end.

(** [self.sig_keypair.m(...)]: the method runs on the object the attribute
    refers to, and what it leaves of that object is what the attribute
    refers to afterwards. *)
Definition on_sig_keypair {A : Type} (m : ST (Keypair * World) A) : Method A :=
  fun st =>
    match m (sig_keypair (self st), world st) with
    | (r, (kp', w')) =>
        (r, {| self := {| sig_keypair := kp';
                          enc_keypair := enc_keypair (self st);
                          pre := pre (self st) |};
               world := w' |})
    end.

(** [self.enc_keypair.m(...)]. *)
Definition on_enc_keypair {A : Type} (m : ST (Keypair * World) A) : Method A :=
  fun st =>
    match m (enc_keypair (self st), world st) with
    | (r, (kp', w')) =>
        (r, {| self := {| sig_keypair := sig_keypair (self st);
                          enc_keypair := kp';
                          pre := pre (self st) |};
               world := w' |})
    end.

(** [def __init__(self, sig_privkey=None, enc_privkey=None)] *)
Definition __init__ (sig_privkey enc_privkey : option value) : ST World KeyRing :=
  let sig_privkey := default_arg VNone sig_privkey in
  let enc_privkey := default_arg VNone enc_privkey in
  sk <- SigningKeypair sig_privkey ;;
  ek <- EncryptingKeypair enc_privkey ;;
  p <- lift_res (pre_from_algorithm default_algorithm) ;;
  ret {| sig_keypair := sk; enc_keypair := ek; pre := p |}.

(** The four properties. *)
Definition sig_pubkey : Method bytes :=
  gets (fun st => pub_key (sig_keypair (self st))).

Definition sig_privkey : Method bytes :=
  gets (fun st => priv_key (sig_keypair (self st))).

Definition enc_pubkey : Method bytes :=
  gets (fun st => pub_key (enc_keypair (self st))).

Definition enc_privkey : Method bytes :=
  gets (fun st => priv_key (enc_keypair (self st))).

(** [def sign(self, message)] *)
Definition sign (message : bytes) : Method bytes :=
  let msg_digest := keccak_256 message in
  on_sig_keypair (SigningKeypair_sign msg_digest).

(** [def verify(self, message, signature, pubkey=None)] *)
Definition verify (message signature : bytes) (pubkey : option value)
  : Method bool :=
  let pubkey := default_arg VNone pubkey in
  pubkey <- (if negb (truthy pubkey)
             then pk <- gets (fun st => pub_key (sig_keypair (self st))) ;;
                  ret (VBytes pk)
             else ret pubkey) ;;
  let msg_digest := keccak_256 message in
  on_sig_keypair (SigningKeypair_verify msg_digest signature pubkey).

(** [def encrypt(self, plaintext, pubkey=None)] *)
Definition encrypt (plaintext : bytes) (pubkey : option value) : Method bytes :=
  let pubkey := default_arg VNone pubkey in
  pubkey <- (if negb (truthy pubkey)
             then pk <- gets (fun st => pub_key (enc_keypair (self st))) ;;
                  ret (VBytes pk)
             else ret pubkey) ;;
  on_enc_keypair (EncryptingKeypair_encrypt plaintext pubkey).

(** [def decrypt(self, ciphertext)] *)
Definition decrypt (ciphertext : bytes) : Method bytes :=
  on_enc_keypair (EncryptingKeypair_decrypt ciphertext).

(** [def secure_random(self, length)] *)
Definition secure_random (length : Z) : Method bytes :=
  in_world (random length).

(** [def derive_path_key(self, path, is_pub=True)] *)
Definition derive_path_key (path : bytes) (is_pub : option value)
  : Method bytes :=
  let is_pub := default_arg (VBool true) is_pub in
  priv <- enc_privkey ;;
  let key := keccak_256 (priv ++ path) in
  if truthy is_pub
  then p <- gets (fun st => pre (self st)) ;; lift_res (priv2pub p key)
  else ret key.

(** ** A client of the class

    One use of a KeyRing by its owner: a method call or a property read.
    [perform] is the store the use leaves, whether it returned or raised;
    [perform_all] is a run of uses, each on the store the one before left. *)
Inductive Use : Type :=
| UseSign (message : bytes)
| UseVerify (message signature : bytes) (pubkey : option value)
| UseEncrypt (plaintext : bytes) (pubkey : option value)
| UseDecrypt (ciphertext : bytes)
| UseSecureRandom (length : Z)
| UseDerivePathKey (path : bytes) (is_pub : option value)
| ReadSigPubkey
| ReadSigPrivkey
| ReadEncPubkey
| ReadEncPrivkey.

Definition perform (u : Use) (st : Store) : Store :=
  match u with
  | UseSign message => snd (sign message st)
  | UseVerify message signature pubkey => snd (verify message signature pubkey st)
  | UseEncrypt plaintext pubkey => snd (encrypt plaintext pubkey st)
  | UseDecrypt ciphertext => snd (decrypt ciphertext st)
  | UseSecureRandom length => snd (secure_random length st)
  | UseDerivePathKey path is_pub => snd (derive_path_key path is_pub st)
  | ReadSigPubkey => snd (sig_pubkey st)
  | ReadSigPrivkey => snd (sig_privkey st)
  | ReadEncPubkey => snd (enc_pubkey st)
  | ReadEncPrivkey => snd (enc_privkey st)
  end.

Definition perform_all (us : list Use) (st : Store) : Store :=
  fold_left (fun st' u => perform u st') us st.

End KeyRing.

(** ** What the spec says of the absent keypair classes *)

(** A keypair method that leaves its object as it found it. *)
Definition leaves_keypair {A : Type} (m : ST (Keypair * World) A) : Prop :=
  forall kp w, fst (snd (m (kp, w))) = kp.

(** Modelled from the spec: nkms.crypto.keypairs, which defines SigningKeypair
    and EncryptingKeypair, is not among the sources.  Section 3 has each
    identity "immutable for the lifetime of the KeyRing": no method of a
    keypair changes the keypair. *)
Definition keypairs_immutable `{Keypairs} : Prop :=
  (forall digest, leaves_keypair (SigningKeypair_sign digest)) /\
  (forall digest signature pubkey,
      leaves_keypair (SigningKeypair_verify digest signature pubkey)) /\
  (forall plaintext pubkey,
      leaves_keypair (EncryptingKeypair_encrypt plaintext pubkey)) /\
  (forall ciphertext, leaves_keypair (EncryptingKeypair_decrypt ciphertext)).

(** Modelled from the spec: the constructor of EncryptingKeypair is not among
    the sources.  Section 4.1: "If a raw key is supplied, the identity is
    constructed from exactly that private material". *)
Definition keeps_supplied_key (ctor : value -> ST World Keypair) : Prop :=
  forall priv w kp w',
    ctor (VBytes priv) w = (Ok kp, w') -> priv_key kp = priv.

(** ** A runnable instance

    Stand-ins with the shapes of the collaborators, on which the methods can
    be evaluated.  They carry no cryptography: the hash reverses its input
    behind a tag, a public key is its private key behind a tag, a signature is
    the private key followed by the digest, and a ciphertext is a nonce drawn
    from the world, the recipient's key and the plaintext. *)
Module Fixture.

Fixpoint bytes_eqb (a b : bytes) : bool :=
  match a, b with
  | [], [] => true
  | x :: a', y :: b' => Byte.eqb x y && bytes_eqb a' b'
  | _, _ => false
  end.

Definition pub_of (priv : bytes) : bytes := x70 :: priv.

Definition new_keypair (privkey : value) : ST World Keypair :=
  match privkey with
  | VBytes (b :: bs) => ret (mkKeypair (b :: bs) (pub_of (b :: bs)))
  | VBytes [] => raise "ValueError"%string
  | VNone => (k <- random 4 ;; ret (mkKeypair k (pub_of k)))%py
  | _ => raise "TypeError"%string
  end.

Definition kp_sign (digest : bytes) : ST (Keypair * World) bytes :=
  fun s => (Ok (priv_key (fst s) ++ digest), s).

Definition kp_verify (digest signature : bytes) (pubkey : value)
  : ST (Keypair * World) bool :=
  fun s =>
    match pubkey with
    | VBytes (_ :: priv) => (Ok (bytes_eqb signature (priv ++ digest)), s)
    | _ => (Raise "TypeError"%string, s)
    end.

Definition kp_encrypt (plaintext : bytes) (pubkey : value)
  : ST (Keypair * World) bytes :=
  fun s =>
    match pubkey with
    | VBytes pk =>
        (Ok (take_bytes 2 (snd s) ++ pk ++ plaintext),
         (fst s, advance 2 (snd s)))
    | _ => (Raise "TypeError"%string, s)
    end.

Fixpoint strip (prefix c : bytes) : option bytes :=
  match prefix, c with
  | [], rest => Some rest
  | x :: prefix', y :: c' => if Byte.eqb x y then strip prefix' c' else None
  | _ :: _, [] => None
  end.

Definition kp_decrypt (ciphertext : bytes) : ST (Keypair * World) bytes :=
  fun s =>
    match strip (pub_key (fst s)) (skipn 2 ciphertext) with
    | Some plaintext => (Ok plaintext, s)
    | None => (Raise "CryptoError"%string, s)
    end.

#[export] Instance sha3 : Sha3 :=
  {| keccak_256 := fun m => x6b :: rev m |}.

#[export] Instance keypairs : Keypairs :=
  {| SigningKeypair := new_keypair;
     SigningKeypair_sign := kp_sign;
     SigningKeypair_verify := kp_verify;
     EncryptingKeypair := new_keypair;
     EncryptingKeypair_encrypt := kp_encrypt;
     EncryptingKeypair_decrypt := kp_decrypt |}.

#[export] Instance proxy : ProxyReEncryption :=
  {| Algorithm := unit;
     PRE := unit;
     default_algorithm := tt;
     pre_from_algorithm := fun _ => Ok tt;
     priv2pub := fun _ scalar => Ok (pub_of scalar) |}.

(** The device hands out 0, 1, 2, ... *)
Definition counting : World :=
  {| device := fun i => match Byte.of_nat (i mod 256) with
                        | Some b => b
                        | None => x00
                        end;
     drawn := 0 |}.

(** A KeyRing with the keys [01 02] (signing) and [03 04] (encrypting). *)
Definition ring : KeyRing :=
  {| sig_keypair := mkKeypair [x01; x02] (pub_of [x01; x02]);
     enc_keypair := mkKeypair [x03; x04] (pub_of [x03; x04]);
     pre := tt |}.

Definition store : Store := {| self := ring; world := counting |}.

End Fixture.

(** ** What a caller expects of the schemes behind the keypairs *)

(** The signature scheme is correct on the keypair [kp]: a signature that the
    keypair's [sign] returns for a digest is accepted by its [verify] for
    that digest under the keypair's own public key. *)
Definition signs_correctly `{Keypairs} (kp : Keypair) : Prop :=
  forall digest w signature kp' w',
    SigningKeypair_sign digest (kp, w) = (Ok signature, (kp', w')) ->
    fst (SigningKeypair_verify digest signature (VBytes (pub_key kp'))
           (kp', w')) = Ok true.

(** The cipher is correct on the keypair [kp]: what the keypair's [encrypt]
    returns for its own public key, its [decrypt] opens. *)
Definition decrypts_own `{Keypairs} (kp : Keypair) : Prop :=
  forall plaintext w ciphertext kp' w',
    EncryptingKeypair_encrypt plaintext (VBytes (pub_key kp)) (kp, w)
      = (Ok ciphertext, (kp', w')) ->
    fst (EncryptingKeypair_decrypt ciphertext (kp', w')) = Ok plaintext.

(** ** A hash with collisions

    A stand-in for the hash that keeps the first byte of its input, on which
    the properties that speak of equal digests can be run. *)
Module Colliding.

Definition first_byte : Sha3 :=
  {| keccak_256 := fun m => firstn 1 m |}.

End Colliding.

(** * Properties *)

Section Properties.

Context {hash : Sha3} {keypair_classes : Keypairs} {proxy : ProxyReEncryption}.

(** ** Frame lemmas: computations that leave [self] alone *)

Definition keeps_self {A : Type} (m : Method A) : Prop :=
  forall st, self (snd (m st)) = self st.

Lemma keeps_self_ret {A : Type} (a : A) : keeps_self (ret a).
Proof. intro st. reflexivity. Qed.

Lemma keeps_self_gets {A : Type} (f : Store -> A) : keeps_self (gets f).
Proof. intro st. reflexivity. Qed.

Lemma keeps_self_lift_res {A : Type} (r : Res A) : keeps_self (lift_res r).
Proof. intro st. reflexivity. Qed.

Lemma keeps_self_bind {A B : Type} (m : Method A) (k : A -> Method B) :
  keeps_self m -> (forall a, keeps_self (k a)) -> keeps_self (bind m k).
Proof.
  intros Hm Hk st. unfold bind.
  specialize (Hm st).
  destruct (m st) as [[a | e] st1]; simpl in *.
  - rewrite Hk. exact Hm.
  - exact Hm.
Qed.

Lemma keeps_self_in_world {A : Type} (m : ST World A) :
  keeps_self (in_world m).
Proof.
  intro st. unfold in_world.
  destruct (m (world st)) as [r w1]. reflexivity.
Qed.

Lemma self_eta (k : KeyRing) :
  {| sig_keypair := sig_keypair k;
     enc_keypair := enc_keypair k;
     pre := pre k |} = k.
Proof. destruct k. reflexivity. Qed.

Lemma keeps_self_on_sig_keypair {A : Type} (m : ST (Keypair * World) A) :
  leaves_keypair m -> keeps_self (on_sig_keypair m).
Proof.
  intros Hm st. unfold on_sig_keypair.
  specialize (Hm (sig_keypair (self st)) (world st)).
  destruct (m (sig_keypair (self st), world st)) as [r [kp1 w1]].
  simpl in *. subst kp1. apply self_eta.
Qed.

Lemma keeps_self_on_enc_keypair {A : Type} (m : ST (Keypair * World) A) :
  leaves_keypair m -> keeps_self (on_enc_keypair m).
Proof.
  intros Hm st. unfold on_enc_keypair.
  specialize (Hm (enc_keypair (self st)) (world st)).
  destruct (m (enc_keypair (self st), world st)) as [r [kp1 w1]].
  simpl in *. subst kp1. apply self_eta.
Qed.

Lemma keeps_self_if {A : Type} (b : bool) (m1 m2 : Method A) :
  keeps_self m1 -> keeps_self m2 -> keeps_self (if b then m1 else m2).
Proof. destruct b; auto. Qed.

Create HintDb frame.
#[local] Hint Resolve keeps_self_ret keeps_self_gets keeps_self_lift_res
  keeps_self_in_world keeps_self_on_sig_keypair keeps_self_on_enc_keypair
  keeps_self_if : frame.
#[local] Hint Extern 2 (keeps_self (bind _ _)) =>
  apply keeps_self_bind; [ | intro ] : frame.

(** ** derive_path_key *)

(** The seed of a path: the hash of the encrypting private key followed by
    the path. *)
Lemma derive_path_key_private (path : bytes) (st : Store) :
  derive_path_key path (Some (VBool false)) st =
    (Ok (keccak_256 (priv_key (enc_keypair (self st)) ++ path)), st).
Proof. reflexivity. Qed.

Lemma derive_path_key_public (path : bytes) (st : Store) :
  derive_path_key path (Some (VBool true)) st =
    (priv2pub (pre (self st))
       (keccak_256 (priv_key (enc_keypair (self st)) ++ path)), st).
Proof. reflexivity. Qed.

(** C1: for every path, [derive_path_key path want_public] hashes the
    encrypting private key followed by the path; it returns that seed when
    [want_public] is false and [priv2pub] of that seed when it is true, so the
    public result is [priv2pub] applied to what the private call returns. *)
Theorem derive_path_key_seed :
  forall (path : bytes) (want_public : bool) (st : Store),
    let seed := keccak_256 (priv_key (enc_keypair (self st)) ++ path) in
    derive_path_key path (Some (VBool want_public)) st =
      ((if want_public then priv2pub (pre (self st)) seed else Ok seed), st)
    /\ derive_path_key path (Some (VBool true)) st =
         (key <- derive_path_key path (Some (VBool false)) ;;
          lift_res (priv2pub (pre (self st)) key)) st.
Proof.
  intros path want_public st seed. split.
  - destruct want_public.
    + apply derive_path_key_public.
    + apply derive_path_key_private.
  - unfold bind. rewrite derive_path_key_private, derive_path_key_public.
    reflexivity.
Qed.

(** C6: the empty path is accepted, and its private key is the hash of the
    encrypting private key alone; no path makes the private derivation
    raise. *)
Theorem derive_path_key_empty_path :
  forall (st : Store),
    derive_path_key [] (Some (VBool false)) st =
      (Ok (keccak_256 (priv_key (enc_keypair (self st)))), st)
    /\ forall path : bytes,
         exists key, derive_path_key path (Some (VBool false)) st = (Ok key, st).
Proof.
  intro st. split.
  - rewrite derive_path_key_private, app_nil_r. reflexivity.
  - intro path. eexists. apply derive_path_key_private.
Qed.

(** C10: [is_pub] defaults to true.  A call with the path alone returns the
    public key, as a call passing true does; of the three ways to give a
    boolean flag, only passing false returns the private seed. *)
Theorem derive_path_key_default_public :
  forall (path : bytes) (st : Store),
    let seed := keccak_256 (priv_key (enc_keypair (self st)) ++ path) in
    derive_path_key path None st = (priv2pub (pre (self st)) seed, st)
    /\ derive_path_key path None st = derive_path_key path (Some (VBool true)) st
    /\ forall flag : option bool,
         derive_path_key path (option_map VBool flag) st =
           match flag with
           | Some false => (Ok seed, st)
           | Some true | None => (priv2pub (pre (self st)) seed, st)
           end.
Proof.
  intros path st seed. repeat split.
  intros [[|]|]; reflexivity.
Qed.

(** ** sign and verify *)

(** C2: [sign message] hashes the message and returns what the signing
    keypair's [sign] returns on that digest; the keypair it runs on is the
    KeyRing's own, and the digest is the only argument it is given. *)
Theorem sign_hashes_then_signs :
  forall (message : bytes) (st : Store),
    let digest := keccak_256 message in
    sign message st = on_sig_keypair (SigningKeypair_sign digest) st
    /\ fst (sign message st) =
         fst (SigningKeypair_sign digest (sig_keypair (self st), world st)).
Proof.
  intros message st digest. split.
  - reflexivity.
  - unfold sign, on_sig_keypair. fold digest.
    destruct (SigningKeypair_sign digest (sig_keypair (self st), world st))
      as [r [kp1 w1]].
    reflexivity.
Qed.

(** The public key [verify] hands to the scheme. *)
Lemma verify_unfold (message signature : bytes) (pubkey : option value)
    (st : Store) :
  verify message signature pubkey st =
    on_sig_keypair
      (SigningKeypair_verify (keccak_256 message) signature
         (if truthy (default_arg VNone pubkey)
          then default_arg VNone pubkey
          else VBytes (pub_key (sig_keypair (self st))))) st.
Proof.
  unfold verify, bind.
  destruct (truthy (default_arg VNone pubkey)); reflexivity.
Qed.


(** ** encrypt *)

(** The recipient key [encrypt] hands to the cipher. *)
Lemma encrypt_unfold (plaintext : bytes) (pubkey : option value) (st : Store) :
  encrypt plaintext pubkey st =
    on_enc_keypair
      (EncryptingKeypair_encrypt plaintext
         (if truthy (default_arg VNone pubkey)
          then default_arg VNone pubkey
          else VBytes (pub_key (enc_keypair (self st))))) st.
Proof.
  unfold encrypt, bind.
  destruct (truthy (default_arg VNone pubkey)); reflexivity.
Qed.

(** C4, as the code has it: [encrypt] returns what the encrypting keypair's
    [encrypt] returns, run on the KeyRing's own keypair with the plaintext
    and a recipient: the KeyRing's own encrypting public key when [pubkey] is
    left out or is a falsy value, and exactly the supplied [pubkey]
    otherwise.  A call that leaves the key out is the call that passes the
    own key, so leaving it out adds no failure. *)
Theorem encrypt_defaults_to_own_key :
  forall (plaintext : bytes) (pubkey : value) (st : Store),
    let own := VBytes (pub_key (enc_keypair (self st))) in
    let recipient := if truthy pubkey then pubkey else own in
    fst (encrypt plaintext None st) =
      fst (EncryptingKeypair_encrypt plaintext own
             (enc_keypair (self st), world st))
    /\ fst (encrypt plaintext (Some pubkey) st) =
         fst (EncryptingKeypair_encrypt plaintext recipient
                (enc_keypair (self st), world st))
    /\ encrypt plaintext None st =
         on_enc_keypair (EncryptingKeypair_encrypt plaintext own) st
    /\ encrypt plaintext (Some pubkey) st =
         on_enc_keypair (EncryptingKeypair_encrypt plaintext recipient) st
    /\ encrypt plaintext None st = encrypt plaintext (Some own) st.
Proof.
  intros plaintext pubkey st own recipient.
  assert (Hrun : forall pk : value,
             fst (on_enc_keypair (EncryptingKeypair_encrypt plaintext pk) st)
             = fst (EncryptingKeypair_encrypt plaintext pk
                      (enc_keypair (self st), world st))).
  { intro pk. unfold on_enc_keypair.
    destruct (EncryptingKeypair_encrypt plaintext pk
                (enc_keypair (self st), world st)) as [r [kp1 w1]].
    reflexivity. }
  split; [ | split; [ | split; [ | split ] ] ].
  - rewrite encrypt_unfold. simpl. apply Hrun.
  - rewrite encrypt_unfold. simpl. apply Hrun.
  - exact (encrypt_unfold plaintext None st).
  - exact (encrypt_unfold plaintext (Some pubkey) st).
  - rewrite !encrypt_unfold. simpl.
    destruct (pub_key (enc_keypair (self st))); reflexivity.
Qed.

(** C9: a supplied [pubkey] that is falsy is dropped: [verify] and [encrypt]
    go on with the KeyRing's own public key, returning what the scheme
    returns on that key, and behave as if the argument had been left out.
    The empty byte string and [None] are such values. *)
Theorem falsy_pubkey_is_replaced :
  forall (pubkey : value) (message signature plaintext : bytes) (st : Store),
    truthy pubkey = false ->
    fst (verify message signature (Some pubkey) st) =
      fst (SigningKeypair_verify (keccak_256 message) signature
             (VBytes (pub_key (sig_keypair (self st))))
             (sig_keypair (self st), world st))
    /\ fst (encrypt plaintext (Some pubkey) st) =
         fst (EncryptingKeypair_encrypt plaintext
                (VBytes (pub_key (enc_keypair (self st))))
                (enc_keypair (self st), world st))
    /\ verify message signature (Some pubkey) st
       = verify message signature None st
    /\ verify message signature (Some pubkey) st =
         on_sig_keypair
           (SigningKeypair_verify (keccak_256 message) signature
              (VBytes (pub_key (sig_keypair (self st))))) st
    /\ encrypt plaintext (Some pubkey) st = encrypt plaintext None st
    /\ encrypt plaintext (Some pubkey) st =
         on_enc_keypair
           (EncryptingKeypair_encrypt plaintext
              (VBytes (pub_key (enc_keypair (self st))))) st
    /\ truthy (VBytes []) = false
    /\ truthy VNone = false.
Proof.
  intros pubkey message signature plaintext st Hpk.
  rewrite !verify_unfold, !encrypt_unfold. simpl. rewrite Hpk.
  split; [ | split; [ | repeat split ] ].
  - unfold on_sig_keypair.
    destruct (SigningKeypair_verify (keccak_256 message) signature
                (VBytes (pub_key (sig_keypair (self st))))
                (sig_keypair (self st), world st)) as [r [kp1 w1]].
    reflexivity.
  - unfold on_enc_keypair.
    destruct (EncryptingKeypair_encrypt plaintext
                (VBytes (pub_key (enc_keypair (self st))))
                (enc_keypair (self st), world st)) as [r [kp1 w1]].
    reflexivity.
Qed.

(** ** secure_random *)




(** ** Construction and determinism *)

(** What [__init__] leaves in the three attributes. *)
Lemma init_attributes (sig_priv enc_priv : option value) (w w' : World)
    (kr : KeyRing) :
  __init__ sig_priv enc_priv w = (Ok kr, w') ->
  exists w1,
    SigningKeypair (default_arg VNone sig_priv) w = (Ok (sig_keypair kr), w1)
    /\ EncryptingKeypair (default_arg VNone enc_priv) w1
       = (Ok (enc_keypair kr), w')
    /\ pre_from_algorithm default_algorithm = Ok (pre kr).
Proof.
  unfold __init__, bind, lift_res, ret.
  destruct (SigningKeypair (default_arg VNone sig_priv) w)
    as [[sk | e] w1] eqn:Hsig; [ | discriminate ].
  destruct (EncryptingKeypair (default_arg VNone enc_priv) w1)
    as [[ek | e] w2] eqn:Henc; [ | discriminate ].
  destruct (pre_from_algorithm default_algorithm) as [p | e] eqn:Hpre;
    [ | discriminate ].
  intro Heq. inversion Heq; subst. simpl.
  exists w1. split; [ reflexivity | split; [ exact Henc | reflexivity ] ].
Qed.

(** The result of [derive_path_key] is a function of the encrypting private
    key, the proxy-re-encryption object, the path and the flag. *)
Lemma derive_path_key_result (path : bytes) (is_pub : option value)
    (st : Store) :
  fst (derive_path_key path is_pub st) =
    if truthy (default_arg (VBool true) is_pub)
    then priv2pub (pre (self st))
           (keccak_256 (priv_key (enc_keypair (self st)) ++ path))
    else Ok (keccak_256 (priv_key (enc_keypair (self st)) ++ path)).
Proof.
  unfold derive_path_key, bind. simpl.
  destruct (truthy (default_arg (VBool true) is_pub)); reflexivity.
Qed.

(** C5: two KeyRings constructed with the same encrypting private key give
    the same result for the same path and flag, whatever their signing keys
    and whatever the state of the world at construction and at the calls. *)
Theorem derive_path_key_deterministic :
  keeps_supplied_key EncryptingKeypair ->
  forall (priv : bytes) (sig1 sig2 : option value)
         (w1 w2 w1' w2' : World) (kr1 kr2 : KeyRing),
    __init__ sig1 (Some (VBytes priv)) w1 = (Ok kr1, w1') ->
    __init__ sig2 (Some (VBytes priv)) w2 = (Ok kr2, w2') ->
    forall (path : bytes) (is_pub : option value) (u1 u2 : World),
      fst (derive_path_key path is_pub {| self := kr1; world := u1 |}) =
      fst (derive_path_key path is_pub {| self := kr2; world := u2 |}).
Proof.
  intros Hctor priv sig1 sig2 w1 w2 w1' w2' kr1 kr2 Hk1 Hk2 path is_pub u1 u2.
  apply init_attributes in Hk1. destruct Hk1 as (v1 & _ & He1 & Hp1).
  apply init_attributes in Hk2. destruct Hk2 as (v2 & _ & He2 & Hp2).
  apply Hctor in He1. apply Hctor in He2.
  assert (Hpre : pre kr1 = pre kr2) by congruence.
  rewrite !derive_path_key_result. simpl.
  rewrite He1, He2, Hpre. reflexivity.
Qed.

(** ** The identities never change *)

Lemma perform_keeps_self :
  keypairs_immutable ->
  forall (u : Use) (st : Store), self (perform u st) = self st.
Proof.
  intros (Hsign & Hverify & Hencrypt & Hdecrypt) u.
  destruct u; simpl; intro st.
  - apply (keeps_self_on_sig_keypair _ (Hsign _)).
  - revert st. change (keeps_self (verify message signature pubkey)).
    unfold verify. auto 6 with frame.
  - revert st. change (keeps_self (encrypt plaintext pubkey)).
    unfold encrypt. auto 6 with frame.
  - apply (keeps_self_on_enc_keypair _ (Hdecrypt _)).
  - apply keeps_self_in_world.
  - revert st. change (keeps_self (derive_path_key path is_pub)).
    unfold derive_path_key, enc_privkey. auto 6 with frame.
  - reflexivity.
  - reflexivity.
  - reflexivity.
  - reflexivity.
Qed.

(** C8: as long as the keypairs' own methods leave the keypairs alone, no
    use of a KeyRing changes its keypairs: after any run of method calls and
    property reads, returned or raised, [self] is what it was.  The four
    properties read a key field and leave the whole store as it is. *)
Theorem identities_never_change :
  keypairs_immutable ->
  forall (us : list Use) (st : Store),
    self (perform_all us st) = self st
    /\ sig_pubkey st = (Ok (pub_key (sig_keypair (self st))), st)
    /\ sig_privkey st = (Ok (priv_key (sig_keypair (self st))), st)
    /\ enc_pubkey st = (Ok (pub_key (enc_keypair (self st))), st)
    /\ enc_privkey st = (Ok (priv_key (enc_keypair (self st))), st).
Proof.
  intros Himm us st. split; [ | repeat split ].
  revert st. unfold perform_all.
  induction us as [ | u us IH ]; intro st; simpl.
  - reflexivity.
  - rewrite IH. apply perform_keeps_self. exact Himm.
Qed.

End Properties.

(** * How the operations compose *)

Section Composition.

Context {hash : Sha3} {keypair_classes : Keypairs} {proxy : ProxyReEncryption}.

(** A call on a keypair attribute returns what the keypair's method
    returns. *)
Lemma on_sig_keypair_result {A : Type} (m : ST (Keypair * World) A)
    (st : Store) :
  fst (on_sig_keypair m st) = fst (m (sig_keypair (self st), world st)).
Proof.
  unfold on_sig_keypair.
  destruct (m (sig_keypair (self st), world st)) as [r [kp1 w1]].
  reflexivity.
Qed.

Lemma on_enc_keypair_result {A : Type} (m : ST (Keypair * World) A)
    (st : Store) :
  fst (on_enc_keypair m st) = fst (m (enc_keypair (self st), world st)).
Proof.
  unfold on_enc_keypair.
  destruct (m (enc_keypair (self st), world st)) as [r [kp1 w1]].
  reflexivity.
Qed.

(** What a call on a keypair attribute leaves: the keypair and the world the
    method left. *)
Lemma on_sig_keypair_inv {A : Type} (m : ST (Keypair * World) A)
    (st st1 : Store) (r : Res A) :
  on_sig_keypair m st = (r, st1) ->
  m (sig_keypair (self st), world st)
    = (r, (sig_keypair (self st1), world st1)).
Proof.
  unfold on_sig_keypair.
  destruct (m (sig_keypair (self st), world st)) as [r1 [kp1 w1]].
  intro Heq. inversion Heq; subst. reflexivity.
Qed.

Lemma on_enc_keypair_inv {A : Type} (m : ST (Keypair * World) A)
    (st st1 : Store) (r : Res A) :
  on_enc_keypair m st = (r, st1) ->
  m (enc_keypair (self st), world st)
    = (r, (enc_keypair (self st1), world st1)).
Proof.
  unfold on_enc_keypair.
  destruct (m (enc_keypair (self st), world st)) as [r1 [kp1 w1]].
  intro Heq. inversion Heq; subst. reflexivity.
Qed.

(** Passing the own signing public key to [verify] is leaving it out. *)
Lemma verify_own_pubkey (message signature : bytes) (st : Store) :
  verify message signature
    (Some (VBytes (pub_key (sig_keypair (self st))))) st
  = verify message signature None st.
Proof.
  rewrite !verify_unfold. simpl.
  destruct (pub_key (sig_keypair (self st))); reflexivity.
Qed.

(** X1: a signature that [sign] returned for a message is accepted by
    [verify] for that message, with the public key left out or with the
    KeyRing's signing public key passed, whenever the signature scheme is
    correct on the signing keypair.  Both methods hash the message the same
    way and run on the same keypair. *)
Theorem verify_accepts_own_signature :
  forall (message signature : bytes) (st st1 : Store),
    signs_correctly (sig_keypair (self st)) ->
    sign message st = (Ok signature, st1) ->
    fst (verify message signature None st1) = Ok true
    /\ fst (verify message signature
              (Some (VBytes (pub_key (sig_keypair (self st1))))) st1)
       = Ok true.
Proof.
  intros message signature st st1 Hscheme Hsign.
  unfold sign in Hsign. apply on_sig_keypair_inv in Hsign.
  apply Hscheme in Hsign.
  assert (Hnone : fst (verify message signature None st1) = Ok true).
  { rewrite verify_unfold, on_sig_keypair_result. simpl. exact Hsign. }
  split; [ exact Hnone | ].
  rewrite verify_own_pubkey. exact Hnone.
Qed.

(** X2: what [encrypt] returns when the recipient is left out, or is a falsy
    value, [decrypt] opens again, whenever the cipher is correct on the
    encrypting keypair: the default recipient is the key [decrypt] uses. *)
Theorem decrypt_opens_own_ciphertext :
  forall (plaintext ciphertext : bytes) (pubkey : option value)
         (st st1 : Store),
    decrypts_own (enc_keypair (self st)) ->
    truthy (default_arg VNone pubkey) = false ->
    encrypt plaintext pubkey st = (Ok ciphertext, st1) ->
    fst (decrypt ciphertext st1) = Ok plaintext.
Proof.
  intros plaintext ciphertext pubkey st st1 Hcipher Hfalsy Henc.
  rewrite encrypt_unfold, Hfalsy in Henc.
  apply on_enc_keypair_inv in Henc. apply Hcipher in Henc.
  unfold decrypt. rewrite on_enc_keypair_result. exact Henc.
Qed.

(** X3: [sign] and [verify] see a message through its digest only.  Two
    messages with the same digest get the same signature and, for every
    signature and key, the same verdict. *)
Theorem equal_digests_interchangeable :
  forall (m1 m2 signature : bytes) (pubkey : option value) (st : Store),
    keccak_256 m1 = keccak_256 m2 ->
    sign m1 st = sign m2 st
    /\ verify m1 signature pubkey st = verify m2 signature pubkey st.
Proof.
  intros m1 m2 signature pubkey st Hdigest. split.
  - unfold sign. rewrite Hdigest. reflexivity.
  - rewrite !verify_unfold, Hdigest. reflexivity.
Qed.

(** X4: the private key and the path are joined without a separator, so the
    boundary between them is not part of the derived key: two KeyRings with
    the same proxy-re-encryption object derive the same key whenever their
    private keys followed by the paths are the same bytes. *)
Theorem derive_path_key_no_separator :
  forall (path1 path2 : bytes) (is_pub : option value) (st1 st2 : Store),
    priv_key (enc_keypair (self st1)) ++ path1
      = priv_key (enc_keypair (self st2)) ++ path2 ->
    pre (self st1) = pre (self st2) ->
    fst (derive_path_key path1 is_pub st1)
      = fst (derive_path_key path2 is_pub st2).
Proof.
  intros path1 path2 is_pub st1 st2 Hcat Hpre.
  rewrite !derive_path_key_result, Hcat, Hpre. reflexivity.
Qed.

(** X5: in one KeyRing two different paths have the same private derived
    key only at a collision of the hash: the two hashed inputs differ and
    have the same digest. *)
Theorem equal_derived_keys_need_collision :
  forall (path1 path2 : bytes) (st : Store),
    path1 <> path2 ->
    fst (derive_path_key path1 (Some (VBool false)) st)
      = fst (derive_path_key path2 (Some (VBool false)) st) ->
    priv_key (enc_keypair (self st)) ++ path1
      <> priv_key (enc_keypair (self st)) ++ path2
    /\ keccak_256 (priv_key (enc_keypair (self st)) ++ path1)
       = keccak_256 (priv_key (enc_keypair (self st)) ++ path2).
Proof.
  intros path1 path2 st Hneq Hsame. split.
  - intro Hcat. apply app_inv_head in Hcat. exact (Hneq Hcat).
  - rewrite !derive_path_key_result in Hsame. simpl in Hsame.
    inversion Hsame. reflexivity.
Qed.

(** X6: [is_pub] counts through its truth value only.  Any object passed
    for it acts as the boolean it tests to; [None] passed explicitly is
    falsy and returns the private seed, unlike a call that leaves the flag
    out. *)
Theorem derive_path_key_flag_truthiness :
  forall (path : bytes) (v : value) (st : Store),
    derive_path_key path (Some v) st
      = derive_path_key path (Some (VBool (truthy v))) st
    /\ derive_path_key path (Some VNone) st
       = (Ok (keccak_256 (priv_key (enc_keypair (self st)) ++ path)), st).
Proof.
  intros path v st. split.
  - unfold derive_path_key. simpl. reflexivity.
  - reflexivity.
Qed.

Lemma perform_all_keeps_self :
  keypairs_immutable ->
  forall (us : list Use) (st : Store), self (perform_all us st) = self st.
Proof.
  intros Himm us. unfold perform_all.
  induction us as [ | u us IH ]; intro st; simpl.
  - reflexivity.
  - rewrite IH. apply perform_keeps_self. exact Himm.
Qed.

Lemma derive_path_key_reads_only (path : bytes) (is_pub : option value)
    (st : Store) :
  snd (derive_path_key path is_pub st) = st.
Proof.
  unfold derive_path_key, bind, enc_privkey, gets, lift_res, ret. simpl.
  destruct (truthy (default_arg (VBool true) is_pub)); reflexivity.
Qed.

(** X7: a derived key is stable for the life of the KeyRing.  Deriving
    leaves the store, world included, as it was, and as long as the keypairs'
    own methods leave the keypairs alone, the key derived after any run of
    uses is the key derived before it. *)
Theorem derived_keys_stable :
  keypairs_immutable ->
  forall (us : list Use) (path : bytes) (is_pub : option value) (st : Store),
    fst (derive_path_key path is_pub (perform_all us st))
      = fst (derive_path_key path is_pub st)
    /\ snd (derive_path_key path is_pub st) = st.
Proof.
  intros Himm us path is_pub st. split.
  - rewrite !derive_path_key_result.
    rewrite (perform_all_keeps_self Himm us st). reflexivity.
  - apply derive_path_key_reads_only.
Qed.

(** X8: [__init__] builds the signing keypair first.  When its constructor
    raises, that is the outcome, in the world it left, and the encrypting
    keypair is not built; when [__init__] returns, the encrypting keypair was
    built in the world the signing one left, and the third attribute is the
    object of the default algorithm, whatever keys were passed. *)
Theorem init_builds_signing_first :
  forall (sig_priv enc_priv : option value) (w : World),
    (forall e w1,
        SigningKeypair (default_arg VNone sig_priv) w = (Raise e, w1) ->
        __init__ sig_priv enc_priv w = (Raise e, w1))
    /\ (forall kr w',
          __init__ sig_priv enc_priv w = (Ok kr, w') ->
          exists w1,
            SigningKeypair (default_arg VNone sig_priv) w
              = (Ok (sig_keypair kr), w1)
            /\ EncryptingKeypair (default_arg VNone enc_priv) w1
               = (Ok (enc_keypair kr), w')
            /\ pre_from_algorithm default_algorithm = Ok (pre kr)).
Proof.
  intros sig_priv enc_priv w. split.
  - intros e w1 Hsig. unfold __init__, bind. rewrite Hsig. reflexivity.
  - intros kr w' Hinit. apply init_attributes. exact Hinit.
Qed.

End Composition.

(** * The properties on the runnable instance *)

Import Fixture.

Lemma fixture_keypairs_immutable : keypairs_immutable.
Proof.
  repeat split; intros; intros kp w; try reflexivity.
  - destruct pubkey as [ | b | n | [ | b bs ] ]; reflexivity.
  - destruct pubkey; reflexivity.
  - simpl. unfold kp_decrypt. simpl.
    destruct (strip _ _); reflexivity.
Qed.

Lemma fixture_keeps_supplied_key : keeps_supplied_key EncryptingKeypair.
Proof.
  intros priv w kp w' Hnew. simpl in Hnew. unfold new_keypair in Hnew.
  destruct priv as [ | b bs ].
  - discriminate.
  - inversion Hnew. reflexivity.
Qed.

(** C4 as stated fails: the empty byte string supplied as [pubkey] is not
    the recipient.  The cipher is run on the own key [70 03 04]; run on the
    supplied key it would have returned another ciphertext. *)
Lemma encrypt_empty_pubkey_not_recipient :
  fst (encrypt [x09; x0a] (Some (VBytes [])) store)
    = Ok [x00; x01; x70; x03; x04; x09; x0a]
  /\ fst (EncryptingKeypair_encrypt [x09; x0a] (VBytes [])
            (enc_keypair ring, counting))
     = Ok [x00; x01; x09; x0a]
  /\ ~ (forall (plaintext : bytes) (pubkey : value) (st : Store),
          fst (encrypt plaintext (Some pubkey) st) =
            fst (EncryptingKeypair_encrypt plaintext pubkey
                   (enc_keypair (self st), world st))).
Proof.
  split; [ reflexivity | split; [ reflexivity | ] ].
  intro Hclaim.
  specialize (Hclaim [x09; x0a] (VBytes []) store).
  vm_compute in Hclaim. discriminate Hclaim.
Qed.

(** The empty byte string as [pubkey] on the fixture: the signature of [09]
    under the own key is accepted, and the ciphertext names the own key
    [70 03 04]. *)
Lemma falsy_pubkey_is_replaced_witness :
  truthy (VBytes []) = false
  /\ fst (verify [x09] [x01; x02; x6b; x09] (Some (VBytes [])) store)
     = Ok true
  /\ fst (encrypt [x0a] (Some (VBytes [])) store)
     = Ok [x00; x01; x70; x03; x04; x0a]
  /\ verify [x09] [x01; x02; x6b; x09] (Some (VBytes [])) store =
       verify [x09] [x01; x02; x6b; x09] None store
  /\ encrypt [x0a] (Some (VBytes [])) store = encrypt [x0a] None store.
Proof.
  split; [ reflexivity | ].
  pose proof (falsy_pubkey_is_replaced (VBytes []) [x09] [x01; x02; x6b; x09]
                [x0a] store eq_refl) as (Hv1 & He1 & Hv & _ & He & _).
  split; [ exact Hv1 | ].
  split; [ exact He1 | ].
  split; [ exact Hv | exact He ].
Defined.

(** Two KeyRings built on the encrypting key [03 04]: one with a drawn
    signing key in the fresh world, one with the signing key [01 02] in a
    world that has handed out seven bytes, called in different worlds. *)
Lemma derive_path_key_deterministic_witness :
  keeps_supplied_key EncryptingKeypair
  /\ fst (__init__ None (Some (VBytes [x03; x04])) counting) =
       Ok {| sig_keypair := mkKeypair [x00; x01; x02; x03]
                              (pub_of [x00; x01; x02; x03]);
             enc_keypair := enc_keypair ring;
             pre := tt |}
  /\ fst (__init__ (Some (VBytes [x01; x02])) (Some (VBytes [x03; x04]))
            (advance 7 counting)) = Ok ring
  /\ fst (derive_path_key [x09] None
            {| self := {| sig_keypair := mkKeypair [x00; x01; x02; x03]
                                           (pub_of [x00; x01; x02; x03]);
                          enc_keypair := enc_keypair ring;
                          pre := tt |};
               world := advance 4 counting |}) =
     fst (derive_path_key [x09] None
            {| self := ring; world := advance 9 counting |}).
Proof.
  split; [ exact fixture_keeps_supplied_key | ].
  split; [ reflexivity | ].
  split; [ reflexivity | ].
  exact (derive_path_key_deterministic fixture_keeps_supplied_key
           [x03; x04] None (Some (VBytes [x01; x02]))
           counting (advance 7 counting)
           (advance 4 counting) (advance 7 counting)
           _ ring eq_refl eq_refl
           [x09] None (advance 4 counting) (advance 9 counting)).
Defined.

(** A run of all ten uses on the fixture, one of which raises. *)
Lemma identities_never_change_witness :
  keypairs_immutable
  /\ self (perform_all
             [UseSign [x09]; UseVerify [x09] [x01] None;
              UseEncrypt [x0a] None; UseDecrypt [x00];
              UseSecureRandom 3; UseSecureRandom (-1);
              UseDerivePathKey [x0b] None;
              ReadSigPubkey; ReadSigPrivkey; ReadEncPubkey; ReadEncPrivkey]
             store) = ring.
Proof.
  split; [ exact fixture_keypairs_immutable | ].
  exact (proj1 (identities_never_change fixture_keypairs_immutable
                  [UseSign [x09]; UseVerify [x09] [x01] None;
                   UseEncrypt [x0a] None; UseDecrypt [x00];
                   UseSecureRandom 3; UseSecureRandom (-1);
                   UseDerivePathKey [x0b] None;
                   ReadSigPubkey; ReadSigPrivkey; ReadEncPubkey;
                   ReadEncPrivkey]
                  store)).
Defined.


(** * The compositions on the runnable instance *)

Lemma bytes_eqb_refl (a : bytes) : bytes_eqb a a = true.
Proof.
  induction a as [ | x a IH ]; simpl.
  - reflexivity.
  - rewrite (Byte.byte_dec_lb (eq_refl x)), IH. reflexivity.
Qed.

Lemma fixture_signs_correctly : signs_correctly (sig_keypair ring).
Proof.
  intros digest w signature kp' w' Hsign.
  simpl in Hsign. unfold kp_sign in Hsign. simpl in Hsign.
  inversion Hsign; subst. simpl.
  rewrite bytes_eqb_refl. reflexivity.
Qed.

Lemma fixture_decrypts_own : decrypts_own (enc_keypair ring).
Proof.
  intros plaintext w ciphertext kp' w' Henc.
  simpl in Henc. unfold kp_encrypt in Henc. simpl in Henc.
  inversion Henc; subst. reflexivity.
Qed.

(** Signing [09 0a] with the key [01 02] and checking the result. *)
Lemma verify_accepts_own_signature_witness :
  signs_correctly (sig_keypair ring)
  /\ sign [x09; x0a] store = (Ok [x01; x02; x6b; x0a; x09], store)
  /\ fst (verify [x09; x0a] [x01; x02; x6b; x0a; x09] None store) = Ok true.
Proof.
  split; [ exact fixture_signs_correctly | ].
  split; [ reflexivity | ].
  exact (proj1 (verify_accepts_own_signature [x09; x0a]
                  [x01; x02; x6b; x0a; x09] store store
                  fixture_signs_correctly eq_refl)).
Defined.

(** Encrypting [09 0a] to nobody in particular and opening the result. *)
Lemma decrypt_opens_own_ciphertext_witness :
  decrypts_own (enc_keypair ring)
  /\ truthy (default_arg VNone None) = false
  /\ fst (encrypt [x09; x0a] None store)
     = Ok [x00; x01; x70; x03; x04; x09; x0a]
  /\ fst (decrypt [x00; x01; x70; x03; x04; x09; x0a]
            (snd (encrypt [x09; x0a] None store)))
     = Ok [x09; x0a].
Proof.
  split; [ exact fixture_decrypts_own | ].
  split; [ reflexivity | ].
  split; [ reflexivity | ].
  exact (decrypt_opens_own_ciphertext [x09; x0a]
           [x00; x01; x70; x03; x04; x09; x0a] None store
           (snd (encrypt [x09; x0a] None store))
           fixture_decrypts_own eq_refl eq_refl).
Defined.

(** Under the first-byte hash [09 0a] and [09 0b] have the digest [09]. *)
Lemma equal_digests_interchangeable_witness :
  @keccak_256 Colliding.first_byte [x09; x0a]
    = @keccak_256 Colliding.first_byte [x09; x0b]
  /\ sign (hash := Colliding.first_byte) [x09; x0a] store
     = sign (hash := Colliding.first_byte) [x09; x0b] store
  /\ verify (hash := Colliding.first_byte) [x09; x0a] [x01; x02; x09] None
       store
     = verify (hash := Colliding.first_byte) [x09; x0b] [x01; x02; x09] None
         store.
Proof.
  split; [ reflexivity | ].
  exact (equal_digests_interchangeable (hash := Colliding.first_byte)
           [x09; x0a] [x09; x0b] [x01; x02; x09] None store eq_refl).
Defined.

(** The key [03 04] with the path [09], and the key [03] with the path
    [04 09]. *)
Lemma derive_path_key_no_separator_witness :
  [x03; x04] ++ [x09] = [x03] ++ [x04; x09]
  /\ fst (derive_path_key [x09] None store)
     = fst (derive_path_key [x04; x09] None
              {| self := {| sig_keypair := sig_keypair ring;
                            enc_keypair := mkKeypair [x03] (pub_of [x03]);
                            pre := tt |};
                 world := counting |}).
Proof.
  split; [ reflexivity | ].
  exact (derive_path_key_no_separator [x09] [x04; x09] None store
           {| self := {| sig_keypair := sig_keypair ring;
                         enc_keypair := mkKeypair [x03] (pub_of [x03]);
                         pre := tt |};
              world := counting |}
           eq_refl eq_refl).
Defined.

(** Under the first-byte hash the paths [09] and [0a] derive the same key
    from [03 04], and the hashed inputs are the collision. *)
Lemma equal_derived_keys_need_collision_witness :
  [x09] <> [x0a]
  /\ fst (derive_path_key (hash := Colliding.first_byte) [x09]
            (Some (VBool false)) store)
     = fst (derive_path_key (hash := Colliding.first_byte) [x0a]
              (Some (VBool false)) store)
  /\ [x03; x04; x09] <> [x03; x04; x0a]
  /\ @keccak_256 Colliding.first_byte [x03; x04; x09]
     = @keccak_256 Colliding.first_byte [x03; x04; x0a].
Proof.
  assert (Hneq : [x09] <> [x0a]) by discriminate.
  split; [ exact Hneq | ].
  split; [ reflexivity | ].
  exact (equal_derived_keys_need_collision (hash := Colliding.first_byte)
           [x09] [x0a] store Hneq eq_refl).
Defined.

(** The key of the path [0b] after a run of uses, two of which raise. *)
Lemma derived_keys_stable_witness :
  keypairs_immutable
  /\ fst (derive_path_key [x0b] None
            (perform_all
               [UseSign [x09]; UseEncrypt [x0a] None; UseDecrypt [x00];
                UseSecureRandom 3; UseSecureRandom (-1);
                UseDerivePathKey [x0c] (Some (VBool false))]
               store))
     = fst (derive_path_key [x0b] None store).
Proof.
  split; [ exact fixture_keypairs_immutable | ].
  exact (proj1 (derived_keys_stable fixture_keypairs_immutable
                  [UseSign [x09]; UseEncrypt [x0a] None; UseDecrypt [x00];
                   UseSecureRandom 3; UseSecureRandom (-1);
                   UseDerivePathKey [x0c] (Some (VBool false))]
                  [x0b] None store)).
Defined.

(** An empty signing key is refused by the fixture's constructor, and that
    is what [__init__] raises, in the world untouched. *)
Lemma init_builds_signing_first_witness :
  SigningKeypair (VBytes []) counting = (Raise "ValueError"%string, counting)
  /\ __init__ (Some (VBytes [])) (Some (VBytes [x03; x04])) counting
     = (Raise "ValueError"%string, counting).
Proof.
  split; [ reflexivity | ].
  exact (proj1 (init_builds_signing_first (Some (VBytes []))
                  (Some (VBytes [x03; x04])) counting)
           "ValueError"%string counting eq_refl).
Defined.
